(** * The Alpine provisioner of libmachine/provision (alpine.go)

    A shallow embedding of [AlpineProvisioner] and of the commands it sends
    to the machine it provisions.  The Go methods have a pointer receiver and
    talk to the host through [SSHCommand]; here they are computations in a
    state monad whose state holds the receiver, the calls made so far and the
    log, and whose answers come from a [Host] that may look at everything
    that was asked before. *)

From Stdlib Require Import Ascii String.
From stdpp Require Import base option list strings gmap.

Open Scope string_scope.
Open Scope list_scope.

(** ** Go values the file relies on *)

(** A Go [error] is known by its [Error()] text; a nil error is [None] of
    [option error]. *)
Record error := errorString { Error : string }.

Module fmt.

(** What [Sprintf] appends when operands are left over. *)
Fixpoint extra (args : list string) : string :=
  match args with
  | [] => ""
  | [a] => "string=" +:+ a
  | a :: rest => "string=" +:+ a +:+ ", " +:+ extra rest
  end.

(** [fmt.Sprintf] on string operands.  [%s] and [%v] print the next
    operand as it is and [%%] prints a percent sign; a verb that has no
    operand left prints [%!c(MISSING)], any other verb prints Go's
    bad-verb form, a lone [%] at the end prints [%!(NOVERB)], and operands
    left over are reported after the text.  Flags, widths and the verbs
    [%q], [%x], [%X] are outside this model; no format string of alpine.go
    has them. *)
Fixpoint Sprintf (format : string) (args : list string) : string :=
  match format with
  | EmptyString =>
      match args with
      | [] => ""
      | _ => "%!(EXTRA " +:+ extra args +:+ ")"
      end
  | String "%" EmptyString => "%!(NOVERB)"
  | String "%" (String "%" rest) => String "%" (Sprintf rest args)
  | String "%" (String c rest) =>
      match args with
      | [] => "%!" +:+ String c "(MISSING)" +:+ Sprintf rest []
      | a :: args' =>
          (if decide (c = "s"%char ∨ c = "v"%char) then a
           else "%!" +:+ String c "(string=" +:+ a +:+ ")")
          +:+ Sprintf rest args'
      end
  | String c rest => String c (Sprintf rest args)
  end.

(** [fmt.Errorf]: an error whose text is the formatted string. *)
Definition Errorf (format : string) (args : list string) : error :=
  errorString (Sprintf format args).

End fmt.

(** ** The packages alpine.go imports *)

Module pkgaction.

(** Modelled from the spec: the package pkgaction is not among the
    sources.  The spec gives the closed vocabulary Install, Remove,
    Upgrade; in Go it is an integer type whose constants are numbered in
    the order they are declared, and any other integer is a value of the
    type as well. *)
Definition PackageAction := Z.
Definition Install : PackageAction := 0%Z.
Definition Remove : PackageAction := 1%Z.
Definition Upgrade : PackageAction := 2%Z.

End pkgaction.

Module drivers.

(** The two queries alpine.go makes of the driver interface.  The driver
    is only read, never written. *)
Record Driver := {
  GetMachineName : string;
  DriverName : string
}.

End drivers.

Module engine.

(** Modelled from the spec: engine.Options is declared outside the
    sources; these are the three fields alpine.go reads or writes. *)
Record Options := {
  Env : list string;
  InstallURL : string;
  StorageDriver : string
}.

Definition zero : Options :=
  {| Env := []; InstallURL := ""; StorageDriver := "" |}.

Definition with_StorageDriver (v : string) (o : Options) : Options :=
  {| Env := Env o; InstallURL := InstallURL o; StorageDriver := v |}.

End engine.

Module swarm.

(** Modelled from the spec: swarm.Options is declared outside the
    sources.  alpine.go writes [Env]; the role and the discovery endpoint
    are the other fields the spec lists. *)
Record Options := {
  Master : bool;
  Discovery : string;
  Env : list string
}.

Definition zero : Options :=
  {| Master := false; Discovery := ""; Env := [] |}.

Definition with_Env (v : list string) (o : Options) : Options :=
  {| Master := Master o; Discovery := Discovery o; Env := v |}.

End swarm.

Module auth.

(** Modelled from the spec: auth.Options is declared outside the sources.
    alpine.go names none of its fields and only moves the struct around;
    [CertDir] is the field the spec's scenario sets. *)
Record Options := {
  CertDir : string
}.

Definition zero : Options := {| CertDir := "" |}.

End auth.

(** ** The provisioner *)

Record GenericSSHCommander := {
  CommanderDriver : drivers.Driver
}.

Record GenericProvisioner := {
  SSHCommander : GenericSSHCommander;
  DockerOptionsDir : string;
  DaemonOptionsFile : string;
  OsReleaseID : string;
  Packages : list string;
  Driver : drivers.Driver;
  SwarmOptions : swarm.Options;
  AuthOptions : auth.Options;
  EngineOptions : engine.Options
}.

(** [AlpineProvisioner] embeds the generic provisioner and adds no field. *)
Record AlpineProvisioner := {
  Generic : GenericProvisioner
}.

Definition NewAlpineProvisioner (d : drivers.Driver) : AlpineProvisioner :=
  {| Generic :=
       {| SSHCommander := {| CommanderDriver := d |};
          DockerOptionsDir := "/etc/docker";
          DaemonOptionsFile := "/etc/conf.d/docker";
          OsReleaseID := "alpine";
          Packages := ["docker"];
          Driver := d;
          SwarmOptions := swarm.zero;
          AuthOptions := auth.zero;
          EngineOptions := engine.zero |} |}.

Definition AlpineProvisioner_String (provisioner : AlpineProvisioner) : string :=
  "alpine".

(** Assignments to the three option fields of the receiver. *)
Definition set_SwarmOptions (v : swarm.Options) (p : AlpineProvisioner) : AlpineProvisioner :=
  let g := Generic p in
  {| Generic :=
       {| SSHCommander := SSHCommander g; DockerOptionsDir := DockerOptionsDir g;
          DaemonOptionsFile := DaemonOptionsFile g; OsReleaseID := OsReleaseID g;
          Packages := Packages g; Driver := Driver g;
          SwarmOptions := v; AuthOptions := AuthOptions g;
          EngineOptions := EngineOptions g |} |}.

Definition set_AuthOptions (v : auth.Options) (p : AlpineProvisioner) : AlpineProvisioner :=
  let g := Generic p in
  {| Generic :=
       {| SSHCommander := SSHCommander g; DockerOptionsDir := DockerOptionsDir g;
          DaemonOptionsFile := DaemonOptionsFile g; OsReleaseID := OsReleaseID g;
          Packages := Packages g; Driver := Driver g;
          SwarmOptions := SwarmOptions g; AuthOptions := v;
          EngineOptions := EngineOptions g |} |}.

Definition set_EngineOptions (v : engine.Options) (p : AlpineProvisioner) : AlpineProvisioner :=
  let g := Generic p in
  {| Generic :=
       {| SSHCommander := SSHCommander g; DockerOptionsDir := DockerOptionsDir g;
          DaemonOptionsFile := DaemonOptionsFile g; OsReleaseID := OsReleaseID g;
          Packages := Packages g; Driver := Driver g;
          SwarmOptions := SwarmOptions g; AuthOptions := AuthOptions g;
          EngineOptions := v |} |}.

(** ** Calls that leave the process *)

(** Everything Provision, Package, SetHostname and upgrade do to the machine
    goes through one of these calls.  [RunSSH] is [provisioner.SSHCommand].
    The other five are functions of the package that are declared outside
    alpine.go; each is given the receiver as it stands when the call is
    made, and its explicit arguments. *)
Inductive Event :=
| RunSSH (command : string)
| CallGenericSetHostname (base : GenericProvisioner) (hostname : string)
| CallSelectDocker (p : AlpineProvisioner) (url : string)
| CallMakeDockerOptionsDir (p : AlpineProvisioner)
| CallConfigureAuth (p : AlpineProvisioner)
| CallConfigureSwarm (p : AlpineProvisioner)
    (swarmOptions : swarm.Options) (authOptions : auth.Options).

(** The machine and the collaborators: what a command prints, and whether a
    call returns nil or an error, both as functions of the calls made
    before it. *)
Record Host := {
  stdout : list Event → string → string;
  answer : list Event → Event → option error
}.

Inductive Level := Debug | Info.

Record State := {
  self : AlpineProvisioner;
  issued : list Event;
  logged : list (Level * string)
}.

Definition M (A : Type) : Type := State → A * State.

#[global] Instance M_ret : MRet M := λ A a st, (a, st).
#[global] Instance M_bind : MBind M :=
  λ A B f m st, let '(a, st') := m st in f a st'.

(** [if err := step; err != nil { return err }], then [next]. *)
Definition or_return (step next : M (option error)) : M (option error) :=
  err ← step;
  match err with
  | Some e => mret (Some e)
  | None => next
  end.

Notation "'check' step ; next" := (or_return step next)
  (at level 20, step at level 100, next at level 200, only parsing) : stdpp_scope.

(** Reading and assigning through the receiver pointer. *)
Definition receiver : M AlpineProvisioner := λ st, (self st, st).

Definition assign (f : AlpineProvisioner → AlpineProvisioner) : M () :=
  λ st, (tt, {| self := f (self st); issued := issued st; logged := logged st |}).

Definition write_log (lvl : Level) (format : string) (args : list string) : M () :=
  λ st, (tt, {| self := self st; issued := issued st;
                logged := logged st ++ [(lvl, fmt.Sprintf format args)] |}).

Module log.
Definition Debugf := write_log Debug.
Definition Infof := write_log Info.
End log.

(** The command [SetHostname] sends first; alpine.go writes it in place. *)
Definition hosts_cleanup : string :=
  "sed /127.0.1.1/d /etc/hosts > /tmp/hosts && cat /tmp/hosts | sudo tee /etc/hosts".

(** The state once the call [ev] is made. *)
Definition called (ev : Event) (st : State) : State :=
  {| self := self st; issued := issued st ++ [ev]; logged := logged st |}.

Section Alpine.

(** Constants and helpers of the package that alpine.go uses and other
    files declare. *)
Variable hostnameTmpl : string.
Variable DefaultEngineInstallURL : string.
Variable setRemoteAuthOptions : AlpineProvisioner → auth.Options.

Variable host : Host.

(** One call: the host answers it knowing the calls made so far, and the
    call joins them. *)
Definition call (ev : Event) : M (option error) :=
  λ st, (answer host (issued st) ev, called ev st).

Definition SSHCommand (command : string) : M (string * option error) :=
  λ st, let '(err, st') := call (RunSSH command) st in
        ((stdout host (issued st) command, err), st').

(** Modelled from the spec: the generic [SetHostname], [selectDocker],
    [makeDockerOptionsDir], [ConfigureAuth] and [configureSwarm] are declared
    outside alpine.go.  The spec has each of them issue shell commands and
    hand the error of a failed one to its caller; here each is one call
    that the host answers with nil or an error.  They read the receiver and
    leave its fields as they are. *)
Definition GenericProvisioner_SetHostname (hostname : string) : M (option error) :=
  p ← receiver; call (CallGenericSetHostname (Generic p) hostname).

Definition selectDocker (url : string) : M (option error) :=
  p ← receiver; call (CallSelectDocker p url).

Definition makeDockerOptionsDir : M (option error) :=
  p ← receiver; call (CallMakeDockerOptionsDir p).

Definition ConfigureAuth : M (option error) :=
  p ← receiver; call (CallConfigureAuth p).

Definition configureSwarm (swarmOptions : swarm.Options) (authOptions : auth.Options)
  : M (option error) :=
  p ← receiver; call (CallConfigureSwarm p swarmOptions authOptions).

(** *** The methods of alpine.go *)

Definition upgrade : M (option error) :=
  p ← receiver;
  match drivers.DriverName (Driver (Generic p)) with
  | _ =>
      log.Infof "Running upgrade" [];;
      '(_, err) ← SSHCommand "sudo apk upgrade";
      match err with
      | Some e => mret (Some e)
      | None =>
          log.Infof "Upgrade succeeded, rebooting" [];;
          _ ← SSHCommand "sudo reboot";
          mret None
      end
  end.

(** The command the switch of [Package] leaves in [command]; the variable
    starts as the empty string and no case is a default. *)
Definition package_command (name : string) (action : pkgaction.PackageAction) : string :=
  if decide (action = pkgaction.Install) then
    fmt.Sprintf "sudo rc-update add %s boot" [name]
  else if decide (action = pkgaction.Remove) then
    fmt.Sprintf "sudo rc-update del %s boot" [name]
  else "".

Definition Package (name : string) (action : pkgaction.PackageAction) : M (option error) :=
  if decide (name = "docker" ∧ action = pkgaction.Upgrade) then upgrade
  else
    let command := package_command name action in
    '(_, err) ← SSHCommand command;
    match err with
    | Some e => mret (Some e)
    | None => mret None
    end.

Definition SetHostname (hostname : string) : M (option error) :=
  check ('(_, err) ← SSHCommand hosts_cleanup; mret err);
  check GenericProvisioner_SetHostname hostname;
  check ('(_, err) ← SSHCommand (fmt.Sprintf hostnameTmpl [hostname]); mret err);
  mret None.

(** The [for _, pkg := range provisioner.Packages] loop; an error leaves
    the loop and, through [check] in [Provision], the method. *)
Fixpoint install_packages (pkgs : list string) : M (option error) :=
  match pkgs with
  | [] => mret None
  | pkg :: rest =>
      log.Debugf "Installing package %s" [pkg];;
      check Package pkg pkgaction.Install;
      install_packages rest
  end.

(** The storage-driver branch of [Provision]. *)
Definition resolve_storage_driver : M (option error) :=
  p ← receiver;
  let driver := engine.StorageDriver (EngineOptions (Generic p)) in
  if decide (driver = "") then
    assign (set_EngineOptions
              (engine.with_StorageDriver "overlay" (EngineOptions (Generic p))));;
    mret None
  else if decide (driver ≠ "overlay") then
    mret (Some (fmt.Errorf "Unsupported storage driver: %s" [driver]))
  else mret None.

Definition Provision (swarmOptions : swarm.Options) (authOptions : auth.Options)
    (engineOptions : engine.Options) : M (option error) :=
  p ← receiver;
  log.Debugf "Running RancherOS provisioner on %s"
    [drivers.GetMachineName (Driver (Generic p))];;
  assign (set_SwarmOptions swarmOptions);;
  assign (set_AuthOptions authOptions);;
  assign (set_EngineOptions engineOptions);;
  let swarmOptions := swarm.with_Env (engine.Env engineOptions) swarmOptions in
  check resolve_storage_driver;
  p ← receiver;
  log.Debugf "Setting hostname %s" [drivers.GetMachineName (Driver (Generic p))];;
  check SetHostname (drivers.GetMachineName (Driver (Generic p)));
  p ← receiver;
  check install_packages (Packages (Generic p));
  check (if decide (engine.InstallURL engineOptions = DefaultEngineInstallURL) then
           log.Debugf "Skipping docker engine default: %s"
             [engine.InstallURL engineOptions];;
           mret None
         else
           log.Debugf "Selecting docker engine: %s" [engine.InstallURL engineOptions];;
           selectDocker (engine.InstallURL engineOptions));
  check makeDockerOptionsDir;
  log.Debugf "Preparing certificates" [];;
  p ← receiver;
  assign (set_AuthOptions (setRemoteAuthOptions p));;
  log.Debugf "Setting up certificates" [];;
  check ConfigureAuth;
  log.Debugf "Configuring swarm" [];;
  p ← receiver;
  err ← configureSwarm swarmOptions (AuthOptions (Generic p));
  mret err.

End Alpine.

(** ** Service *)

Module serviceaction.

(** Modelled from the spec: the package serviceaction is not among the
    sources.  [ServiceAction] is an integer type in Go; its [String] method,
    which renders the token put in the command, is taken as it comes. *)
Definition ServiceAction := Z.

End serviceaction.

Section Service.

Variable ServiceAction_String : serviceaction.ServiceAction → string.
Variable host : Host.

Definition Service (name : string) (action : serviceaction.ServiceAction)
  : M (option error) :=
  let command := fmt.Sprintf "sudo rc-service %s %s" [name; ServiceAction_String action] in
  '(_, err) ← SSHCommand host command;
  match err with
  | Some e => mret (Some e)
  | None => mret None
  end.

End Service.

(** ** The registry *)

(** A registry entry.  [New] returns the Provisioner interface in Go; the
    implementation alpine.go registers is [AlpineProvisioner]. *)
Record RegisteredProvisioner := {
  New : drivers.Driver → AlpineProvisioner
}.

(** Modelled from the spec: [Register] and the lookup by name are declared
    outside alpine.go.  The spec describes a table from symbolic names to
    factories, written by [Register] and read by name. *)
Definition Register (name : string) (p : RegisteredProvisioner)
    (provisioners : gmap string RegisteredProvisioner)
  : gmap string RegisteredProvisioner :=
  <[name := p]> provisioners.

Definition lookup_provisioner (name : string)
    (provisioners : gmap string RegisteredProvisioner)
  : option RegisteredProvisioner :=
  provisioners !! name.

(** [func init()] of alpine.go. *)
Definition init (provisioners : gmap string RegisteredProvisioner)
  : gmap string RegisteredProvisioner :=
  Register "AlpineLinux" {| New := NewAlpineProvisioner |} provisioners.

(** ** What the spec says of the order of calls *)

(** A list of calls made in order until one of them errors: the calls
    made, and the error of the last one or nil. *)
Fixpoint fail_fast (host : Host) (before steps : list Event)
  : list Event * option error :=
  match steps with
  | [] => ([], None)
  | ev :: rest =>
      match answer host before ev with
      | Some e => ([ev], Some e)
      | None =>
          let '(made, r) := fail_fast host (before ++ [ev]) rest in
          (ev :: made, r)
      end
  end.

(** The storage drivers [Provision] accepts. *)
Definition supported (driver : string) : Prop :=
  driver = "" ∨ driver = "overlay".

#[global] Instance supported_dec (driver : string) : Decision (supported driver).
Proof. unfold supported. apply _. Defined.

(** The engine options [Provision] keeps once the driver is resolved. *)
Definition resolved (engineOptions : engine.Options) : engine.Options :=
  if decide (engine.StorageDriver engineOptions = "") then
    engine.with_StorageDriver "overlay" engineOptions
  else engineOptions.

(** The receiver once the three arguments are stored and the driver is
    resolved, and once the auth options are rewritten. *)
Definition stored (swarmOptions : swarm.Options) (authOptions : auth.Options)
    (engineOptions : engine.Options) (p : AlpineProvisioner) : AlpineProvisioner :=
  set_EngineOptions (resolved engineOptions)
    (set_AuthOptions authOptions (set_SwarmOptions swarmOptions p)).

Definition rewritten (setRemoteAuthOptions : AlpineProvisioner → auth.Options)
    (p : AlpineProvisioner) : AlpineProvisioner :=
  set_AuthOptions (setRemoteAuthOptions p) p.

(** The three calls of [SetHostname]. *)
Definition hostname_plan (hostnameTmpl : string) (p : AlpineProvisioner)
    (hostname : string) : list Event :=
  [ RunSSH hosts_cleanup;
    CallGenericSetHostname (Generic p) hostname;
    RunSSH (fmt.Sprintf hostnameTmpl [hostname]) ].

(** One boot registration per package, in the order of the list. *)
Definition install_plan (pkgs : list string) : list Event :=
  (λ pkg, RunSSH ("sudo rc-update add " +:+ pkg +:+ " boot")) <$> pkgs.

(** The calls of a [Provision] in which nothing fails, in order. *)
Definition provision_plan (hostnameTmpl DefaultEngineInstallURL : string)
    (setRemoteAuthOptions : AlpineProvisioner → auth.Options)
    (p : AlpineProvisioner) (swarmOptions : swarm.Options)
    (authOptions : auth.Options) (engineOptions : engine.Options) : list Event :=
  let p1 := stored swarmOptions authOptions engineOptions p in
  let p2 := rewritten setRemoteAuthOptions p1 in
  hostname_plan hostnameTmpl p1 (drivers.GetMachineName (Driver (Generic p1))) ++
  install_plan (Packages (Generic p1)) ++
  (if decide (engine.InstallURL engineOptions = DefaultEngineInstallURL) then []
   else [CallSelectDocker p1 (engine.InstallURL engineOptions)]) ++
  [ CallMakeDockerOptionsDir p1;
    CallConfigureAuth p2;
    CallConfigureSwarm p2
      (swarm.with_Env (engine.Env engineOptions) swarmOptions)
      (AuthOptions (Generic p2)) ].

(** The calls to [ConfigureAuth] and to [configureSwarm] among others. *)
Definition is_ConfigureAuth (ev : Event) : bool :=
  match ev with
  | CallConfigureAuth _ => true
  | _ => false
  end.

Definition is_configureSwarm (ev : Event) : bool :=
  match ev with
  | CallConfigureSwarm _ _ _ => true
  | _ => false
  end.

(** [m], started in [st], makes the calls of [plan] in order up to the first
    that errors, and returns what that run returns. *)
Definition follows (host : Host) (m : M (option error)) (plan : list Event)
    (st : State) : Prop :=
  (m st).1 = (fail_fast host (issued st) plan).2 ∧
  issued (m st).2 = issued st ++ (fail_fast host (issued st) plan).1.

(** The fields of the provisioner that are set when it is made: everything
    but the three options. *)
Definition same_machine (p q : AlpineProvisioner) : Prop :=
  SSHCommander (Generic p) = SSHCommander (Generic q) ∧
  DockerOptionsDir (Generic p) = DockerOptionsDir (Generic q) ∧
  DaemonOptionsFile (Generic p) = DaemonOptionsFile (Generic q) ∧
  OsReleaseID (Generic p) = OsReleaseID (Generic q) ∧
  Packages (Generic p) = Packages (Generic q) ∧
  Driver (Generic p) = Driver (Generic q).

(** [m] keeps what was logged and may log more. *)
Definition appends_log {A} (m : M A) : Prop :=
  ∀ st, ∃ more, logged (m st).2 = logged st ++ more.

(** ** Fixtures *)

(** A host on which every call succeeds and prints nothing. *)
Definition quiet_host : Host :=
  {| stdout := λ _ _, ""; answer := λ _ _, None |}.

(** A host that refuses its first call and accepts the later ones. *)
Definition refusing_host : Host :=
  {| stdout := λ _ _, "";
     answer := λ before _,
       match before with
       | [] => Some (errorString "exit status 1")
       | _ => None
       end |}.

Definition stub_driver : drivers.Driver :=
  {| drivers.GetMachineName := "node1"; drivers.DriverName := "stub" |}.

(** The state in which a method of [p] is first called. *)
Definition fresh (p : AlpineProvisioner) : State :=
  {| self := p; issued := []; logged := [] |}.

Definition btrfs_options : engine.Options :=
  {| engine.Env := ["HTTP_PROXY=http://proxy:3128"]; engine.InstallURL := "";
     engine.StorageDriver := "btrfs" |}.

Definition proxy_options : engine.Options :=
  {| engine.Env := ["HTTP_PROXY=http://proxy:3128"]; engine.InstallURL := "";
     engine.StorageDriver := "" |}.

Definition master_options : swarm.Options :=
  {| swarm.Master := true; swarm.Discovery := "token://1234";
     swarm.Env := ["SWARM=1"] |}.

Definition stub_setRemoteAuthOptions (p : AlpineProvisioner) : auth.Options :=
  {| auth.CertDir := DockerOptionsDir (Generic p) |}.

(** * Facts *)

(** ** Formatting *)

Lemma Sprintf_rc_update_add (name : string) :
  fmt.Sprintf "sudo rc-update add %s boot" [name] = "sudo rc-update add " +:+ name +:+ " boot".
Proof. reflexivity. Qed.

Lemma Sprintf_rc_update_del (name : string) :
  fmt.Sprintf "sudo rc-update del %s boot" [name] = "sudo rc-update del " +:+ name +:+ " boot".
Proof. reflexivity. Qed.

Lemma append_empty_r (s : string) : s +:+ "" = s.
Proof.
  induction s as [|c s IH]; [done|].
  change (String c (s +:+ "") = String c s). by rewrite IH.
Qed.

Lemma Errorf_storage_driver (driver : string) :
  fmt.Errorf "Unsupported storage driver: %s" [driver]
  = errorString ("Unsupported storage driver: " +:+ driver).
Proof.
  unfold fmt.Errorf. f_equal.
  change (fmt.Sprintf "Unsupported storage driver: %s" [driver])
    with ("Unsupported storage driver: " +:+ (driver +:+ "")).
  by rewrite append_empty_r.
Qed.

(** ** The monad *)

Lemma bind_run {A B} (m : M A) (f : A → M B) (st : State) :
  (m ≫= f) st = f (m st).1 (m st).2.
Proof. unfold mbind, M_bind. by destruct (m st). Qed.

Lemma or_return_run (step next : M (option error)) (st : State) :
  or_return step next st =
    match (step st).1 with
    | Some e => (Some e, (step st).2)
    | None => next (step st).2
    end.
Proof. unfold or_return. rewrite bind_run. by destruct (step st).1. Qed.

(** ** Runs that stop at the first error *)

Lemma fail_fast_app (host : Host) (xs ys before : list Event) :
  fail_fast host before (xs ++ ys) =
    match fail_fast host before xs with
    | (made, Some e) => (made, Some e)
    | (made, None) =>
        let '(more, r) := fail_fast host (before ++ made) ys in (made ++ more, r)
    end.
Proof.
  revert before. induction xs as [|x xs IH]; intros before; cbn.
  - rewrite app_nil_r. by destruct (fail_fast host before ys).
  - destruct (answer host before x); [done|].
    rewrite IH. destruct (fail_fast host (before ++ [x]) xs) as [made [e|]]; [done|].
    rewrite <- app_assoc. cbn.
    by destruct (fail_fast host (before ++ x :: made) ys).
Qed.

(** When each call of the plan is answered nil in its turn, the whole plan
    is carried out. *)
Lemma fail_fast_all_nil (host : Host) (steps before : list Event) :
  (∀ pre ev post, steps = pre ++ ev :: post → answer host (before ++ pre) ev = None) →
  fail_fast host before steps = (steps, None).
Proof.
  revert before. induction steps as [|x xs IH]; intros before Hall; cbn; [done|].
  rewrite <- (app_nil_r before) at 1. rewrite (Hall [] x xs eq_refl).
  rewrite IH; [done|].
  intros pre ev post ->. rewrite <- app_assoc. by apply (Hall (x :: pre) ev post).
Qed.

(** The calls made are an initial part of the plan. *)
Lemma fail_fast_prefix (host : Host) (steps before : list Event) :
  ∃ skipped, steps = (fail_fast host before steps).1 ++ skipped.
Proof.
  revert before. induction steps as [|x xs IH]; intros before; cbn.
  - by exists [].
  - destruct (answer host before x).
    + by exists xs.
    + destruct (IH (before ++ [x])) as [k Hk].
      destruct (fail_fast host (before ++ [x]) xs) as [made r]; cbn in *.
      exists k. by f_equal.
Qed.


(** An error returned is the answer to the last call made. *)
Lemma fail_fast_error (host : Host) (steps before : list Event) (e : error) :
  (fail_fast host before steps).2 = Some e →
  ∃ pre ev, (fail_fast host before steps).1 = pre ++ [ev] ∧
            answer host (before ++ pre) ev = Some e.
Proof.
  revert before. induction steps as [|x xs IH]; intros before; cbn; [done|].
  destruct (answer host before x) eqn:Hx; cbn.
  - intros [= ->]. exists [], x. by rewrite app_nil_r.
  - specialize (IH (before ++ [x])).
    destruct (fail_fast host (before ++ [x]) xs) as [made r]; cbn in *.
    intros Hr. destruct (IH Hr) as (pre & ev & -> & Hev).
    exists (x :: pre), ev. split; [done|].
    by rewrite <- app_assoc in Hev.
Qed.


(** ** The methods, one run at a time *)

(** Unfold the monad and the primitive calls, so that [cbn] runs a method. *)
Ltac unfold_run :=
  unfold follows, or_return, upgrade, SSHCommand,
    GenericProvisioner_SetHostname, selectDocker, makeDockerOptionsDir,
    ConfigureAuth, configureSwarm, log.Debugf, log.Infof, write_log, assign,
    receiver, call, called, mbind, M_bind, mret, M_ret in *.

(** Split on the next answer of the host. *)
Ltac case_answer :=
  match goal with
  | |- context [answer ?h ?b ?ev] => destruct (answer h b ev) eqn:?
  end.

Lemma install_plan_commands_only (f : Event → bool) (pkgs : list string) :
  (∀ command, f (RunSSH command) = false) →
  List.filter f (install_plan pkgs) = [].
Proof.
  intros Hf. induction pkgs as [|pkg rest IH]; [done|].
  cbn. by rewrite Hf.
Qed.

Section Runs.

Variable hostnameTmpl : string.
Variable DefaultEngineInstallURL : string.
Variable setRemoteAuthOptions : AlpineProvisioner → auth.Options.
Variable host : Host.

Lemma follows_call (ev : Event) (st : State) :
  follows host (call host ev) [ev] st.
Proof. unfold_run; cbn. by case_answer. Qed.

Lemma follows_ssh (command : string) (st : State) :
  follows host ('(_, err) ← SSHCommand host command; mret err) [RunSSH command] st.
Proof. unfold_run; cbn. by case_answer. Qed.

Lemma follows_nil (st : State) : follows host (mret None) [] st.
Proof. unfold_run; cbn. by rewrite app_nil_r. Qed.

Lemma follows_check (m1 m2 : M (option error)) (p1 p2 : list Event) (st : State) :
  follows host m1 p1 st →
  follows host m2 p2 (m1 st).2 →
  follows host (or_return m1 m2) (p1 ++ p2) st.
Proof.
  unfold follows. intros [R1 I1] [R2 I2].
  rewrite or_return_run, fail_fast_app.
  destruct (fail_fast host (issued st) p1) as [made1 r1]; cbn in *.
  rewrite R1. destruct r1 as [e|]; [done|].
  rewrite I1 in R2, I2.
  destruct (fail_fast host (issued st ++ made1) p2) as [made2 r2]; cbn in *.
  by rewrite R2, I2, app_assoc.
Qed.

Lemma follows_silent (m : M ()) (k : M (option error)) (plan : list Event) (st : State) :
  issued (m st).2 = issued st →
  follows host k plan (m st).2 →
  follows host (m ;; k) plan st.
Proof.
  unfold follows. intros Hm. rewrite bind_run, Hm. by destruct (m st).1.
Qed.

Lemma follows_receiver (k : AlpineProvisioner → M (option error)) (plan : list Event)
    (st : State) :
  follows host (k (self st)) plan st →
  follows host (p ← receiver; k p) plan st.
Proof. done. Qed.

(** [Package] outside its upgrade branch: one command, whose error or nil
    is returned. *)
Lemma Package_run (name : string) (action : pkgaction.PackageAction) (st : State) :
  ¬ (name = "docker" ∧ action = pkgaction.Upgrade) →
  Package host name action st =
    (answer host (issued st) (RunSSH (package_command name action)),
     called (RunSSH (package_command name action)) st).
Proof.
  intros Hno. unfold Package. case_decide; [done|].
  unfold_run; cbn. by case_answer.
Qed.

Lemma not_docker_upgrade (name : string) (action : pkgaction.PackageAction) :
  action = pkgaction.Install ∨ action = pkgaction.Remove →
  ¬ (name = "docker" ∧ action = pkgaction.Upgrade).
Proof. intros [->| ->] [_ [=]]. Qed.

Lemma upgrade_run (st : State) :
  upgrade host st =
    match answer host (issued st) (RunSSH "sudo apk upgrade") with
    | Some e =>
        (Some e,
         {| self := self st;
            issued := issued st ++ [RunSSH "sudo apk upgrade"];
            logged := logged st ++ [(Info, "Running upgrade")] |})
    | None =>
        (None,
         {| self := self st;
            issued := issued st ++ [RunSSH "sudo apk upgrade"; RunSSH "sudo reboot"];
            logged := logged st ++
                      [(Info, "Running upgrade"); (Info, "Upgrade succeeded, rebooting")] |})
    end.
Proof.
  unfold_run; cbn. case_answer; cbn; [done|].
  by rewrite <- !app_assoc.
Qed.

Lemma SetHostname_follows (hostname : string) (st : State) :
  follows host (SetHostname hostnameTmpl host hostname)
    (hostname_plan hostnameTmpl (self st) hostname) st.
Proof.
  unfold SetHostname, hostname_plan.
  change [?a; ?b; ?c] with ([a] ++ [b] ++ [c] ++ []).
  apply follows_check; [apply follows_ssh|].
  apply follows_check; [apply follows_call|].
  apply follows_check; [apply follows_ssh|].
  apply follows_nil.
Qed.

Lemma follows_last (m : M (option error)) (plan : list Event) (st : State) :
  follows host m plan st →
  follows host (err ← m; mret err) plan st.
Proof. unfold follows. rewrite bind_run. by destruct (m st). Qed.

Lemma Package_Install_follows (name : string) (st : State) :
  follows host (Package host name pkgaction.Install)
    [RunSSH ("sudo rc-update add " +:+ name +:+ " boot")] st.
Proof.
  unfold follows. rewrite Package_run by (apply not_docker_upgrade; by left).
  apply (follows_call _ st).
Qed.

Lemma install_packages_follows (pkgs : list string) (st : State) :
  follows host (install_packages host pkgs) (install_plan pkgs) st.
Proof.
  revert st. induction pkgs as [|pkg rest IH]; intros st.
  - apply follows_nil.
  - change (install_plan (pkg :: rest))
      with ([RunSSH ("sudo rc-update add " +:+ pkg +:+ " boot")] ++ install_plan rest).
    cbn [install_packages].
    apply follows_silent; [done|].
    apply follows_check; [apply Package_Install_follows | apply IH].
Qed.

(** *** Steps that leave the receiver as it is *)

Lemma SetHostname_receiver (hostname : string) (st : State) :
  self (SetHostname hostnameTmpl host hostname st).2 = self st.
Proof.
  unfold SetHostname. unfold_run; cbn. by repeat (case_answer; cbn).
Qed.

Lemma Package_receiver (name : string) (action : pkgaction.PackageAction) (st : State) :
  self (Package host name action st).2 = self st.
Proof.
  unfold Package. case_decide.
  - rewrite upgrade_run. by case_answer.
  - unfold_run; cbn. by case_answer.
Qed.

Lemma install_packages_receiver (pkgs : list string) (st : State) :
  self (install_packages host pkgs st).2 = self st.
Proof.
  revert st. induction pkgs as [|pkg rest IH]; intros st; [done|].
  cbn [install_packages]. rewrite bind_run, or_return_run.
  destruct (Package host pkg pkgaction.Install _).1; cbn [snd].
  - by rewrite Package_receiver.
  - by rewrite IH, Package_receiver.
Qed.

(** *** The storage driver *)

Lemma resolve_storage_driver_supported (st : State) :
  supported (engine.StorageDriver (EngineOptions (Generic (self st)))) →
  resolve_storage_driver st =
    (None,
     {| self := set_EngineOptions (resolved (EngineOptions (Generic (self st)))) (self st);
        issued := issued st; logged := logged st |}).
Proof.
  intros Hsup. unfold resolve_storage_driver, resolved. unfold_run; cbn.
  case_decide; [done|]. case_decide.
  - by destruct Hsup.
  - by destruct st as [[[? ? ? ? ? ? ? ? []]] ? ?].
Qed.

Lemma resolve_storage_driver_unsupported (st : State) :
  ¬ supported (engine.StorageDriver (EngineOptions (Generic (self st)))) →
  resolve_storage_driver st =
    (Some (errorString ("Unsupported storage driver: " +:+
             engine.StorageDriver (EngineOptions (Generic (self st))))), st).
Proof.
  intros Hno. unfold resolve_storage_driver, supported in *. unfold_run; cbn.
  rewrite Errorf_storage_driver.
  case_decide; [tauto|]. case_decide; [done | tauto].
Qed.


(** Replace the state a run has reached by a variable, keeping only that its
    receiver is [p]. *)
Ltac forget_state p :=
  match goal with
  | |- follows _ _ _ ?s =>
      let H := fresh in
      assert (H : self s = p)
        by (repeat case_decide; unfold_run; cbn;
            rewrite ?install_packages_receiver, ?SetHostname_receiver; cbn;
            try done; congruence);
      revert H; generalize s;
      repeat match goal with Hs : self _ = p |- _ => clear Hs end;
      let st' := fresh "st" in
      let Hself := fresh "Hself" in
      intros st' Hself
  end.

Lemma follows_resolve (k : M (option error)) (plan : list Event) (st : State) :
  supported (engine.StorageDriver (EngineOptions (Generic (self st)))) →
  follows host k plan
    {| self := set_EngineOptions (resolved (EngineOptions (Generic (self st)))) (self st);
       issued := issued st; logged := logged st |} →
  follows host (or_return resolve_storage_driver k) plan st.
Proof.
  intros Hsup. unfold follows.
  by rewrite or_return_run, resolve_storage_driver_supported.
Qed.

Lemma Provision_follows (swarmOptions : swarm.Options) (authOptions : auth.Options)
    (engineOptions : engine.Options) (st : State) :
  supported (engine.StorageDriver engineOptions) →
  follows host
    (Provision hostnameTmpl DefaultEngineInstallURL setRemoteAuthOptions host
       swarmOptions authOptions engineOptions)
    (provision_plan hostnameTmpl DefaultEngineInstallURL setRemoteAuthOptions
       (self st) swarmOptions authOptions engineOptions)
    st.
Proof.
  intros Hsup. unfold Provision, provision_plan.
  apply follows_receiver.
  do 4 (apply follows_silent; [done|]).
  apply follows_resolve; [done|].
  cbn [self issued logged snd assign write_log log.Debugf].
  set (p1 := stored swarmOptions authOptions engineOptions (self st)).
  match goal with
  | |- follows _ _ _ {| self := ?x; issued := _; logged := ?l |} =>
      change x with p1; generalize l; intros l1
  end.
  apply follows_receiver; cbn [self].
  apply follows_silent; [done|].
  apply follows_check; [apply SetHostname_follows|].
  apply follows_receiver. rewrite SetHostname_receiver; cbn [self snd write_log log.Debugf].
  apply follows_check; [apply install_packages_follows|].
  forget_state p1.
  change [?a; ?b; ?c] with ([a] ++ [b] ++ [c]).
  apply follows_check.
  { case_decide; (apply follows_silent; [done|]); [apply follows_nil|].
    unfold selectDocker. apply follows_receiver. cbn [self snd log.Debugf write_log].
    rewrite Hself. apply follows_call. }
  forget_state p1.
  apply follows_check.
  { unfold makeDockerOptionsDir. apply follows_receiver. rewrite Hself. apply follows_call. }
  forget_state p1.
  apply follows_silent; [done|].
  apply follows_receiver.
  do 2 (apply follows_silent; [done|]).
  cbn [self snd log.Debugf write_log assign]. rewrite Hself.
  apply follows_check.
  { unfold ConfigureAuth. apply follows_receiver. apply follows_call. }
  apply follows_silent; [done|].
  apply follows_receiver. apply follows_last.
  unfold configureSwarm. apply follows_receiver.
  apply follows_call.
Qed.

(** The same for goals about the receiver at the end of a run. *)
Ltac known_receiver p :=
  match goal with
  | |- self (?f ?s).2 ∈ _ =>
      let H := fresh in
      assert (H : self s = p)
        by (repeat case_decide; unfold_run; cbn;
            rewrite ?install_packages_receiver, ?SetHostname_receiver; cbn;
            try done; congruence);
      revert H; generalize s;
      repeat match goal with Hs : self _ = _ |- _ => clear Hs end;
      let st' := fresh "st" in
      let Hself := fresh "Hself" in
      intros st' Hself
  end.

(** Run the binds, the logs and the assignments at the head of a method. *)
Ltac exec :=
  repeat first
    [ rewrite bind_run; cbv beta
    | progress cbn [receiver assign log.Debugf write_log fst snd self issued logged] ].

(** The run stopped at this step: the receiver is the one known so far. *)
Ltac stopped :=
  repeat case_decide; unfold_run; cbn;
  rewrite ?install_packages_receiver, ?SetHostname_receiver; cbn;
  repeat match goal with H : self _ = _ |- _ => rewrite H end;
  repeat constructor.

(** One [check]: either the step failed, or the run goes on. *)
Ltac check_step :=
  rewrite or_return_run;
  match goal with
  | |- context [match ?r with Some _ => _ | None => _ end] => destruct r
  end;
  cbn [snd].

Lemma Provision_receiver (swarmOptions : swarm.Options) (authOptions : auth.Options)
    (engineOptions : engine.Options) (st : State) :
  supported (engine.StorageDriver engineOptions) →
  let p1 := stored swarmOptions authOptions engineOptions (self st) in
  self (Provision hostnameTmpl DefaultEngineInstallURL setRemoteAuthOptions host
          swarmOptions authOptions engineOptions st).2
  ∈ [p1; rewritten setRemoteAuthOptions p1].
Proof.
  intros Hsup p1. unfold Provision. exec.
  rewrite or_return_run, resolve_storage_driver_supported by done.
  cbn [receiver assign log.Debugf write_log fst snd self issued logged].
  fold (stored swarmOptions authOptions engineOptions (self st)). fold p1.
  known_receiver p1.
  do 4 (exec; check_step; [stopped|]; known_receiver p1).
  exec. rewrite Hself.
  check_step; [stopped|].
  exec. unfold_run; cbn. repeat constructor.
Qed.

Lemma Provision_unsupported (swarmOptions : swarm.Options) (authOptions : auth.Options)
    (engineOptions : engine.Options) (st : State) :
  ¬ supported (engine.StorageDriver engineOptions) →
  Provision hostnameTmpl DefaultEngineInstallURL setRemoteAuthOptions host
    swarmOptions authOptions engineOptions st =
    (Some (errorString ("Unsupported storage driver: " +:+
                        engine.StorageDriver engineOptions)),
     {| self := set_EngineOptions engineOptions
                  (set_AuthOptions authOptions
                     (set_SwarmOptions swarmOptions (self st)));
        issued := issued st;
        logged := logged st ++
          [(Debug, fmt.Sprintf "Running RancherOS provisioner on %s"
                     [drivers.GetMachineName (Driver (Generic (self st)))])] |}).
Proof.
  intros Hno. unfold Provision. exec.
  by rewrite or_return_run, resolve_storage_driver_unsupported.
Qed.

(** The calls to [configureSwarm] that a plan holds. *)
Lemma provision_plan_swarm_calls (swarmOptions : swarm.Options) (authOptions : auth.Options)
    (engineOptions : engine.Options) (p0 p : AlpineProvisioner)
    (sw : swarm.Options) (au : auth.Options) :
  CallConfigureSwarm p sw au
    ∈ provision_plan hostnameTmpl DefaultEngineInstallURL setRemoteAuthOptions
        p0 swarmOptions authOptions engineOptions →
  sw = swarm.with_Env (engine.Env engineOptions) swarmOptions ∧
  p = rewritten setRemoteAuthOptions (stored swarmOptions authOptions engineOptions p0).
Proof.
  unfold provision_plan, hostname_plan, install_plan.
  rewrite !elem_of_app, !elem_of_cons, list_elem_of_fmap.
  intros [Hin|[Hin|[Hin|Hin]]].
  - by destruct Hin as [|[|[|Hin%elem_of_nil]]].
  - by destruct Hin as (? & ? & ?).
  - case_decide; [by apply elem_of_nil in Hin|].
    by apply list_elem_of_singleton in Hin.
  - destruct Hin as [|[|[[= -> -> ->]|Hin%elem_of_nil]]]; done.
Qed.

(** What [Provision] adds to the calls made, whatever the storage driver. *)
Lemma Provision_made (swarmOptions : swarm.Options) (authOptions : auth.Options)
    (engineOptions : engine.Options) (st : State) :
  let plan := provision_plan hostnameTmpl DefaultEngineInstallURL setRemoteAuthOptions
                (self st) swarmOptions authOptions engineOptions in
  ∃ made skipped,
    issued (Provision hostnameTmpl DefaultEngineInstallURL setRemoteAuthOptions host
              swarmOptions authOptions engineOptions st).2 = issued st ++ made ∧
    plan = made ++ skipped.
Proof.
  intros plan.
  destruct (decide (supported (engine.StorageDriver engineOptions))) as [Hsup|Hno].
  - destruct (Provision_follows swarmOptions authOptions engineOptions st Hsup) as [_ Hmade].
    destruct (fail_fast_prefix host plan (issued st)) as [skipped Hplan].
    by exists (fail_fast host (issued st) plan).1, skipped.
  - rewrite Provision_unsupported by done.
    exists [], plan. split; [by rewrite app_nil_r | done].
Qed.

Lemma Provision_swarm_calls (swarmOptions : swarm.Options) (authOptions : auth.Options)
    (engineOptions : engine.Options) (st : State) :
  ∃ made,
    issued (Provision hostnameTmpl DefaultEngineInstallURL setRemoteAuthOptions host
              swarmOptions authOptions engineOptions st).2 = issued st ++ made ∧
    ∀ p sw au, CallConfigureSwarm p sw au ∈ made →
      sw = swarm.with_Env (engine.Env engineOptions) swarmOptions ∧
      p = rewritten setRemoteAuthOptions
            (stored swarmOptions authOptions engineOptions (self st)).
Proof.
  destruct (Provision_made swarmOptions authOptions engineOptions st)
    as (made & skipped & Hmade & Hplan).
  exists made. split; [done|].
  intros p sw au Hin.
  apply (provision_plan_swarm_calls swarmOptions authOptions engineOptions (self st) p sw au).
  rewrite Hplan. apply elem_of_app. by left.
Qed.

Lemma provision_plan_head (p : AlpineProvisioner) (swarmOptions : swarm.Options)
    (authOptions : auth.Options) (engineOptions : engine.Options) :
  ∃ rest,
    provision_plan hostnameTmpl DefaultEngineInstallURL setRemoteAuthOptions
      p swarmOptions authOptions engineOptions = RunSSH hosts_cleanup :: rest.
Proof. by eexists. Qed.

Lemma fail_fast_head (ev : Event) (rest before : list Event) :
  ∃ later, (fail_fast host before (ev :: rest)).1 = ev :: later.
Proof.
  cbn. destruct (answer host before ev).
  - by exists [].
  - destruct (fail_fast host (before ++ [ev]) rest) as [made r]. by exists made.
Qed.

(** The options the receiver holds when a [Provision] with a supported
    storage driver returns. *)
Lemma Provision_stored_options (swarmOptions : swarm.Options) (authOptions : auth.Options)
    (engineOptions : engine.Options) (st : State) :
  supported (engine.StorageDriver engineOptions) →
  let out := Provision hostnameTmpl DefaultEngineInstallURL setRemoteAuthOptions host
               swarmOptions authOptions engineOptions st in
  SwarmOptions (Generic (self out.2)) = swarmOptions ∧
  EngineOptions (Generic (self out.2)) = resolved engineOptions.
Proof.
  intros Hsup out.
  pose proof (Provision_receiver swarmOptions authOptions engineOptions st Hsup) as Hin.
  fold out in Hin. cbn zeta in Hin.
  apply elem_of_cons in Hin as [-> | Hin]; [done|].
  by apply list_elem_of_singleton in Hin as ->.
Qed.

End Runs.

(** * The claims *)

(** C1.  A [Provision] asked for the empty storage driver keeps "overlay" on
    the provisioner and passes the check: the cleanup command is sent, and
    the result is nil or the answer of the host to the last call made.  A
    [Provision] asked for a driver that is neither empty nor "overlay"
    returns the unsupported-driver error and makes no call. *)
Theorem Provision_storage_driver (hostnameTmpl DefaultEngineInstallURL : string)
    (setRemoteAuthOptions : AlpineProvisioner → auth.Options) (host : Host)
    (swarmOptions : swarm.Options) (authOptions : auth.Options)
    (engineOptions : engine.Options) (st : State) :
  let out := Provision hostnameTmpl DefaultEngineInstallURL setRemoteAuthOptions host
               swarmOptions authOptions engineOptions st in
  (engine.StorageDriver engineOptions = "" →
     engine.StorageDriver (EngineOptions (Generic (self out.2))) = "overlay" ∧
     (∃ later, issued out.2 = issued st ++ RunSSH hosts_cleanup :: later) ∧
     (out.1 = None ∨
      ∃ pre ev, issued out.2 = issued st ++ pre ++ [ev] ∧
                answer host (issued st ++ pre) ev = out.1)) ∧
  (engine.StorageDriver engineOptions ≠ "" →
   engine.StorageDriver engineOptions ≠ "overlay" →
     out.1 = Some (errorString ("Unsupported storage driver: " +:+
                                engine.StorageDriver engineOptions)) ∧
     issued out.2 = issued st).
Proof.
  intros out. split.
  - intros Hempty.
    assert (Hsup : supported (engine.StorageDriver engineOptions)) by by left.
    destruct (Provision_stored_options hostnameTmpl DefaultEngineInstallURL
                setRemoteAuthOptions host swarmOptions authOptions engineOptions st Hsup)
      as [_ Heng].
    destruct (Provision_follows hostnameTmpl DefaultEngineInstallURL setRemoteAuthOptions
                host swarmOptions authOptions engineOptions st Hsup) as [Hr Hi].
    fold out in Heng, Hr, Hi. split; [|split].
    + rewrite Heng. unfold resolved. by case_decide.
    + rewrite Hi.
      destruct (provision_plan_head hostnameTmpl DefaultEngineInstallURL
                  setRemoteAuthOptions (self st) swarmOptions authOptions engineOptions)
        as [rest ->].
      destruct (fail_fast_head host (RunSSH hosts_cleanup) rest (issued st)) as [later ->].
      by exists later.
    + destruct out.1 as [e|] eqn:He; [right | by left].
      symmetry in Hr. destruct (fail_fast_error host _ _ e Hr) as (pre & ev & Hmade & Hev).
      exists pre, ev. by rewrite Hi, Hmade.
  - intros Hne Hno. subst out.
    rewrite Provision_unsupported by (by intros [|]). done.
Qed.

Lemma Provision_storage_driver_witness :
  let st := fresh (NewAlpineProvisioner stub_driver) in
  let run := Provision "echo %s" "https://get.docker.com" stub_setRemoteAuthOptions
               quiet_host swarm.zero auth.zero in
  engine.StorageDriver (EngineOptions (Generic (self (run engine.zero st).2))) = "overlay" ∧
  (run btrfs_options st).1 = Some (errorString "Unsupported storage driver: btrfs") ∧
  issued (run btrfs_options st).2 = [].
Proof.
  split.
  - apply (proj1 (Provision_storage_driver "echo %s" "https://get.docker.com"
                    stub_setRemoteAuthOptions quiet_host swarm.zero auth.zero
                    engine.zero (fresh (NewAlpineProvisioner stub_driver)))).
    reflexivity.
  - apply (proj2 (Provision_storage_driver "echo %s" "https://get.docker.com"
                    stub_setRemoteAuthOptions quiet_host swarm.zero auth.zero
                    btrfs_options (fresh (NewAlpineProvisioner stub_driver)))).
    + discriminate.
    + discriminate.
Defined.

(** C2.  [Package "docker" Upgrade] is [upgrade]: it sends
    [sudo apk upgrade]; when that fails its error is returned and nothing
    more is sent; when it succeeds [sudo reboot] is sent and nil is
    returned whatever the host answers to the reboot.  Neither run holds a
    boot registration of any package. *)
Theorem Package_docker_upgrade (host : Host) (st : State) :
  let up := RunSSH "sudo apk upgrade" in
  let reboot := RunSSH "sudo reboot" in
  let out := Package host "docker" pkgaction.Upgrade st in
  out = upgrade host st ∧
  (∃ made, issued out.2 = issued st ++ made ∧
     match answer host (issued st) up with
     | Some e => out.1 = Some e ∧ made = [up]
     | None => out.1 = None ∧ made = [up; reboot]
     end ∧
     ∀ name action, RunSSH (package_command name action) ∉ made).
Proof.
  intros up reboot out. subst out.
  assert (Hup : Package host "docker" pkgaction.Upgrade st = upgrade host st).
  { unfold Package. by case_decide as Hc; [|destruct Hc]. }
  split; [done|]. rewrite Hup, upgrade_run.
  assert (Hno : ∀ name action,
             RunSSH (package_command name action) ∉ [up; reboot]).
  { intros name action Hin. unfold package_command in Hin.
    repeat case_decide;
      apply elem_of_cons in Hin as [[= Hc]|Hin];
      try apply list_elem_of_singleton in Hin as [= Hc];
      cbv in Hc; discriminate Hc. }
  fold up. destruct (answer host (issued st) up) as [e|].
  - exists [up]. cbn. repeat split.
    intros name action Hin. apply (Hno name action).
    apply list_elem_of_singleton in Hin. rewrite Hin. apply elem_of_cons. by left.
  - by exists [up; reboot].
Qed.

(** The reboot is refused and the upgrade still returns nil. *)
Lemma Package_docker_upgrade_witness :
  let host := {| stdout := λ _ _, "";
                 answer := λ _ ev,
                   match ev with
                   | RunSSH "sudo reboot" => Some (errorString "connection closed")
                   | _ => None
                   end |} in
  let out := Package host "docker" pkgaction.Upgrade
               (fresh (NewAlpineProvisioner stub_driver)) in
  out.1 = None ∧
  issued out.2 = [RunSSH "sudo apk upgrade"; RunSSH "sudo reboot"] ∧
  answer host [RunSSH "sudo apk upgrade"] (RunSSH "sudo reboot")
    = Some (errorString "connection closed").
Proof.
  intros host out.
  destruct (Package_docker_upgrade host (fresh (NewAlpineProvisioner stub_driver)))
    as (_ & made & Hmade & Hcase & _).
  cbn in Hcase. destruct Hcase as [Hnil ->].
  split; [exact Hnil|]. split; [exact Hmade | reflexivity].
Defined.

(** C3, as the code has it.  For every package name and every action that
    matches no case of [Package] (neither Install nor Remove, and not the
    upgrade of "docker"), the command is the empty string and [Package]
    passes it to [SSHCommand]: one command, the empty one, is sent, and what
    the host answers to it is returned. *)
Theorem Package_unmatched_action (host : Host) (name : string)
    (action : pkgaction.PackageAction) (st : State) :
  action ≠ pkgaction.Install →
  action ≠ pkgaction.Remove →
  ¬ (name = "docker" ∧ action = pkgaction.Upgrade) →
  package_command name action = "" ∧
  Package host name action st = (answer host (issued st) (RunSSH ""), called (RunSSH "") st).
Proof.
  intros Hi Hr Hu.
  assert (Hc : package_command name action = "").
  { unfold package_command. by repeat case_decide. }
  split; [done|]. by rewrite Package_run, Hc.
Qed.

Lemma Package_unmatched_action_witness :
  package_command "nginx" pkgaction.Upgrade = "" ∧
  Package quiet_host "nginx" pkgaction.Upgrade (fresh (NewAlpineProvisioner stub_driver))
  = (None, called (RunSSH "") (fresh (NewAlpineProvisioner stub_driver))).
Proof.
  apply (Package_unmatched_action quiet_host "nginx" pkgaction.Upgrade
           (fresh (NewAlpineProvisioner stub_driver))).
  - discriminate.
  - discriminate.
  - intros [Hname _]. discriminate Hname.
Defined.

(** C3, as the claim has it, fails: upgrading a package other than "docker"
    matches no case, and a command is sent all the same. *)
Lemma Package_unmatched_action_sends_a_command :
  ¬ (∀ (host : Host) (name : string) (action : pkgaction.PackageAction) (st : State),
       action ≠ pkgaction.Install →
       action ≠ pkgaction.Remove →
       ¬ (name = "docker" ∧ action = pkgaction.Upgrade) →
       issued (Package host name action st).2 = issued st).
Proof.
  intros Hclaim.
  specialize (Hclaim quiet_host "nginx" pkgaction.Upgrade
                (fresh (NewAlpineProvisioner stub_driver))).
  discriminate Hclaim.
  - discriminate.
  - discriminate.
  - intros [Hname _]. discriminate Hname.
Qed.

(** C4, as the code has it.  When the storage driver asked for is empty or
    "overlay" and each call below is answered nil in its turn, [Provision]
    returns nil and makes exactly these calls, in this order: the hosts-file
    cleanup, the generic [SetHostname], the persistence command, one boot
    registration per package of the provisioner in the order of its list,
    [selectDocker] only when the install URL is not the default one,
    [makeDockerOptionsDir], one [ConfigureAuth] on a receiver whose auth
    options are those [setRemoteAuthOptions] returned, and one
    [configureSwarm] with those same auth options. *)
Theorem Provision_order (hostnameTmpl DefaultEngineInstallURL : string)
    (setRemoteAuthOptions : AlpineProvisioner → auth.Options) (host : Host)
    (swarmOptions : swarm.Options) (authOptions : auth.Options)
    (engineOptions : engine.Options) (st : State) :
  let out := Provision hostnameTmpl DefaultEngineInstallURL setRemoteAuthOptions host
               swarmOptions authOptions engineOptions st in
  let p1 := stored swarmOptions authOptions engineOptions (self st) in
  let p2 := set_AuthOptions (setRemoteAuthOptions p1) p1 in
  let name := drivers.GetMachineName (Driver (Generic (self st))) in
  let calls :=
    [ RunSSH hosts_cleanup;
      CallGenericSetHostname (Generic p1) name;
      RunSSH (fmt.Sprintf hostnameTmpl [name]) ] ++
    ((λ pkg, RunSSH ("sudo rc-update add " +:+ pkg +:+ " boot"))
       <$> Packages (Generic (self st))) ++
    (if decide (engine.InstallURL engineOptions = DefaultEngineInstallURL) then []
     else [CallSelectDocker p1 (engine.InstallURL engineOptions)]) ++
    [ CallMakeDockerOptionsDir p1;
      CallConfigureAuth p2;
      CallConfigureSwarm p2
        (swarm.with_Env (engine.Env engineOptions) swarmOptions)
        (setRemoteAuthOptions p1) ] in
  supported (engine.StorageDriver engineOptions) →
  (∀ pre ev post, calls = pre ++ ev :: post → answer host (issued st ++ pre) ev = None) →
  out.1 = None ∧
  issued out.2 = issued st ++ calls ∧
  List.filter is_ConfigureAuth calls = [CallConfigureAuth p2] ∧
  List.filter is_configureSwarm calls
    = [CallConfigureSwarm p2 (swarm.with_Env (engine.Env engineOptions) swarmOptions)
         (setRemoteAuthOptions p1)] ∧
  AuthOptions (Generic p1) = authOptions ∧
  AuthOptions (Generic p2) = setRemoteAuthOptions p1.
Proof.
  intros out p1 p2 name calls Hsup Hnil.
  assert (Hauth : List.filter is_ConfigureAuth calls = [CallConfigureAuth p2]).
  { subst calls. fold (install_plan (Packages (Generic (self st)))).
    rewrite !List.filter_app, (install_plan_commands_only _ _ (λ _, eq_refl)).
    by case_decide. }
  assert (Hswarm : List.filter is_configureSwarm calls
                   = [CallConfigureSwarm p2
                        (swarm.with_Env (engine.Env engineOptions) swarmOptions)
                        (setRemoteAuthOptions p1)]).
  { subst calls. fold (install_plan (Packages (Generic (self st)))).
    rewrite !List.filter_app, (install_plan_commands_only _ _ (λ _, eq_refl)).
    by case_decide. }
  destruct (Provision_follows hostnameTmpl DefaultEngineInstallURL setRemoteAuthOptions
              host swarmOptions authOptions engineOptions st Hsup) as [Hr Hi].
  fold out in Hr, Hi.
  change (provision_plan hostnameTmpl DefaultEngineInstallURL setRemoteAuthOptions
            (self st) swarmOptions authOptions engineOptions) with calls in Hr, Hi.
  rewrite fail_fast_all_nil in Hr, Hi by done.
  by repeat split.
Qed.

(** The scenario of the spec: empty swarm and engine options, local
    certificates, a host on which everything succeeds. *)
Lemma Provision_order_witness :
  let st := fresh (NewAlpineProvisioner stub_driver) in
  let authOptions := {| auth.CertDir := "/local/certs" |} in
  let out := Provision "echo %s" "https://get.docker.com" stub_setRemoteAuthOptions
               quiet_host swarm.zero authOptions engine.zero st in
  let p1 := stored swarm.zero authOptions engine.zero (self st) in
  let p2 := set_AuthOptions (stub_setRemoteAuthOptions p1) p1 in
  out.1 = None ∧
  issued out.2 =
    [ RunSSH hosts_cleanup;
      CallGenericSetHostname (Generic p1) "node1";
      RunSSH "echo node1";
      RunSSH "sudo rc-update add docker boot";
      CallSelectDocker p1 "";
      CallMakeDockerOptionsDir p1;
      CallConfigureAuth p2;
      CallConfigureSwarm p2 swarm.zero {| auth.CertDir := "/etc/docker" |} ] ∧
  List.filter is_ConfigureAuth (issued out.2) = [CallConfigureAuth p2] ∧
  List.filter is_configureSwarm (issued out.2)
    = [CallConfigureSwarm p2 swarm.zero {| auth.CertDir := "/etc/docker" |}] ∧
  AuthOptions (Generic p1) = authOptions ∧
  AuthOptions (Generic p2) = {| auth.CertDir := "/etc/docker" |}.
Proof.
  apply (Provision_order "echo %s" "https://get.docker.com" stub_setRemoteAuthOptions
           quiet_host swarm.zero {| auth.CertDir := "/local/certs" |} engine.zero
           (fresh (NewAlpineProvisioner stub_driver))).
  - left. reflexivity.
  - reflexivity.
Defined.

(** C4, as the claim has it, fails: on a host where every call succeeds, a
    [Provision] that is asked for the storage driver "btrfs" makes no call
    at all. *)
Lemma Provision_order_btrfs :
  ¬ (∀ (hostnameTmpl DefaultEngineInstallURL : string)
       (setRemoteAuthOptions : AlpineProvisioner → auth.Options) (host : Host)
       (swarmOptions : swarm.Options) (authOptions : auth.Options)
       (engineOptions : engine.Options) (st : State),
       (∀ before ev, answer host before ev = None) →
       issued (Provision hostnameTmpl DefaultEngineInstallURL setRemoteAuthOptions host
                 swarmOptions authOptions engineOptions st).2
       = issued st ++
         provision_plan hostnameTmpl DefaultEngineInstallURL setRemoteAuthOptions
           (self st) swarmOptions authOptions engineOptions).
Proof.
  intros Hclaim.
  specialize (Hclaim "echo %s" "https://get.docker.com" stub_setRemoteAuthOptions
                quiet_host swarm.zero auth.zero btrfs_options
                (fresh (NewAlpineProvisioner stub_driver))
                (λ _ _, eq_refl)).
  vm_compute in Hclaim. discriminate Hclaim.
Qed.



(** C6.  For every package name, [Package name Install] sends the one
    command [sudo rc-update add <name> boot] and [Package name Remove] the
    one command [sudo rc-update del <name> boot], each returning what the
    host answered; an Install followed by a Remove of the same name sends
    exactly that pair, in that order, and nothing else. *)
Theorem Package_install_then_remove (host : Host) (name : string) (st : State) :
  let add := RunSSH ("sudo rc-update add " +:+ name +:+ " boot") in
  let del := RunSSH ("sudo rc-update del " +:+ name +:+ " boot") in
  Package host name pkgaction.Install st = (answer host (issued st) add, called add st) ∧
  Package host name pkgaction.Remove st = (answer host (issued st) del, called del st) ∧
  issued ((Package host name pkgaction.Install ≫= λ _,
           Package host name pkgaction.Remove) st).2
    = issued st ++ [add; del].
Proof.
  intros add del.
  assert (Hadd : Package host name pkgaction.Install st
                 = (answer host (issued st) add, called add st)).
  { rewrite Package_run by (apply not_docker_upgrade; by left). done. }
  split; [done|]. split.
  - rewrite Package_run by (apply not_docker_upgrade; by right). done.
  - rewrite bind_run, Hadd. cbn [snd].
    rewrite Package_run by (apply not_docker_upgrade; by right).
    cbn. by rewrite <- app_assoc.
Qed.

(** C7.  For every hostname, [SetHostname] makes three calls in order: the
    cleanup of the hosts file, the generic [SetHostname], the persistence
    command.  It stops at the first that fails and returns its error: a
    failed cleanup is followed by neither of the other two. *)
Theorem SetHostname_steps (hostnameTmpl : string) (host : Host) (hostname : string)
    (st : State) :
  let cleanup := RunSSH hosts_cleanup in
  let base := CallGenericSetHostname (Generic (self st)) hostname in
  let persist := RunSSH (fmt.Sprintf hostnameTmpl [hostname]) in
  let out := SetHostname hostnameTmpl host hostname st in
  match answer host (issued st) cleanup with
  | Some e => out.1 = Some e ∧ issued out.2 = issued st ++ [cleanup]
  | None =>
      match answer host (issued st ++ [cleanup]) base with
      | Some e => out.1 = Some e ∧ issued out.2 = issued st ++ [cleanup; base]
      | None =>
          out.1 = answer host (issued st ++ [cleanup; base]) persist ∧
          issued out.2 = issued st ++ [cleanup; base; persist]
      end
  end.
Proof.
  intros cleanup base persist out.
  destruct (SetHostname_follows hostnameTmpl host hostname st) as [Hr Hi].
  fold out in Hr, Hi. unfold hostname_plan in Hr, Hi. cbn in Hr, Hi.
  fold cleanup base persist in Hr, Hi.
  destruct (answer host (issued st) cleanup); [done|].
  destruct (answer host (issued st ++ [cleanup]) base); [done|].
  rewrite <- app_assoc in Hr, Hi. cbn in Hr, Hi.
  by destruct (answer host (issued st ++ [cleanup; base]) persist).
Qed.

(** The cleanup is refused: it is the only call, and its error comes back. *)
Lemma SetHostname_steps_witness :
  let out := SetHostname "echo %s" refusing_host "newname"
               (fresh (NewAlpineProvisioner stub_driver)) in
  out.1 = Some (errorString "exit status 1") ∧
  issued out.2 = [RunSSH hosts_cleanup].
Proof.
  exact (SetHostname_steps "echo %s" refusing_host "newname"
           (fresh (NewAlpineProvisioner stub_driver))).
Defined.

(** C8.  Whenever [Provision] calls [configureSwarm], the swarm options it
    passes are the caller's with [Env] replaced by the [Env] of the engine
    options. *)
Theorem configureSwarm_gets_engine_env (hostnameTmpl DefaultEngineInstallURL : string)
    (setRemoteAuthOptions : AlpineProvisioner → auth.Options) (host : Host)
    (swarmOptions : swarm.Options) (authOptions : auth.Options)
    (engineOptions : engine.Options) (st : State) :
  let out := Provision hostnameTmpl DefaultEngineInstallURL setRemoteAuthOptions host
               swarmOptions authOptions engineOptions st in
  ∃ made,
    issued out.2 = issued st ++ made ∧
    ∀ p sw au, CallConfigureSwarm p sw au ∈ made →
      swarm.Env sw = engine.Env engineOptions ∧
      sw = swarm.with_Env (engine.Env engineOptions) swarmOptions.
Proof.
  intros out.
  destruct (Provision_swarm_calls hostnameTmpl DefaultEngineInstallURL setRemoteAuthOptions
              host swarmOptions authOptions engineOptions st) as (made & Hmade & Hsw).
  exists made. split; [done|].
  intros p sw au Hin. destruct (Hsw p sw au Hin) as [-> _]. done.
Qed.

(** A run that reaches the swarm step: the call is there, and it carries
    the engine's environment, not the one the caller put in the swarm
    options. *)
Lemma configureSwarm_gets_engine_env_witness :
  let st := fresh (NewAlpineProvisioner stub_driver) in
  let out := Provision "echo %s" "https://get.docker.com" stub_setRemoteAuthOptions
               quiet_host master_options auth.zero proxy_options st in
  let p := rewritten stub_setRemoteAuthOptions
             (stored master_options auth.zero proxy_options (self st)) in
  let sw := {| swarm.Master := true; swarm.Discovery := "token://1234";
               swarm.Env := ["HTTP_PROXY=http://proxy:3128"] |} in
  CallConfigureSwarm p sw (AuthOptions (Generic p)) ∈ issued out.2 ∧
  swarm.Env sw = engine.Env proxy_options ∧
  sw = swarm.with_Env (engine.Env proxy_options) master_options.
Proof.
  intros st out p sw.
  assert (Hin : CallConfigureSwarm p sw (AuthOptions (Generic p)) ∈ issued out.2).
  { vm_compute. do 7 apply list_elem_of_further. apply list_elem_of_here. }
  split; [exact Hin|].
  destruct (configureSwarm_gets_engine_env "echo %s" "https://get.docker.com"
              stub_setRemoteAuthOptions quiet_host master_options auth.zero
              proxy_options st) as (made & Hmade & Hsw).
  apply (Hsw p sw (AuthOptions (Generic p))).
  change (issued st ++ made) with made in Hmade.
  rewrite <- Hmade. exact Hin.
Defined.

(** C9.  Once [init] has registered the strategy, looking up "AlpineLinux"
    gives a factory, and the provisioner it makes for any driver answers
    "alpine" to [String], has the one package "docker" and is bound to that
    driver. *)
Theorem AlpineLinux_round_trip (provisioners : gmap string RegisteredProvisioner)
    (d : drivers.Driver) :
  ∃ r, lookup_provisioner "AlpineLinux" (init provisioners) = Some r ∧
       AlpineProvisioner_String (New r d) = "alpine" ∧
       Packages (Generic (New r d)) = ["docker"] ∧
       Driver (Generic (New r d)) = d.
Proof.
  exists {| New := NewAlpineProvisioner |}.
  unfold lookup_provisioner, init, Register.
  by rewrite lookup_insert_eq.
Qed.

(** C10.  [Provision] takes its three arguments by value; here they are
    arguments of a function, which has no way to write into the caller's
    structs.  The swarm options it stores on the provisioner are the
    caller's, with the caller's [Env], whatever happens later in the run:
    the [Env] of the engine options goes only into the copy handed to
    [configureSwarm], and at that call the receiver still holds the
    caller's swarm options. *)
Theorem Provision_keeps_caller_swarm_options (hostnameTmpl DefaultEngineInstallURL : string)
    (setRemoteAuthOptions : AlpineProvisioner → auth.Options) (host : Host)
    (swarmOptions : swarm.Options) (authOptions : auth.Options)
    (engineOptions : engine.Options) (st : State) :
  let out := Provision hostnameTmpl DefaultEngineInstallURL setRemoteAuthOptions host
               swarmOptions authOptions engineOptions st in
  SwarmOptions (Generic (self out.2)) = swarmOptions ∧
  swarm.Env (SwarmOptions (Generic (self out.2))) = swarm.Env swarmOptions ∧
  (swarm.Env swarmOptions ≠ engine.Env engineOptions →
     swarm.Env (SwarmOptions (Generic (self out.2))) ≠ engine.Env engineOptions) ∧
  ∃ made,
    issued out.2 = issued st ++ made ∧
    ∀ p sw au, CallConfigureSwarm p sw au ∈ made →
      sw = swarm.with_Env (engine.Env engineOptions) swarmOptions ∧
      SwarmOptions (Generic p) = swarmOptions.
Proof.
  intros out.
  assert (Hstored : SwarmOptions (Generic (self out.2)) = swarmOptions).
  { destruct (decide (supported (engine.StorageDriver engineOptions))) as [Hsup|Hno].
    - by destruct (Provision_stored_options hostnameTmpl DefaultEngineInstallURL
                     setRemoteAuthOptions host swarmOptions authOptions engineOptions
                     st Hsup).
    - subst out. by rewrite Provision_unsupported. }
  rewrite Hstored. repeat split; [done|].
  destruct (Provision_swarm_calls hostnameTmpl DefaultEngineInstallURL setRemoteAuthOptions
              host swarmOptions authOptions engineOptions st) as (made & Hmade & Hsw).
  exists made. split; [done|].
  intros p sw au Hin. by destruct (Hsw p sw au Hin) as [-> ->].
Qed.

(** A caller whose swarm options carry their own [Env]: after a full run
    the provisioner holds that [Env], not the engine's. *)
Lemma Provision_keeps_caller_swarm_options_witness :
  let st := fresh (NewAlpineProvisioner stub_driver) in
  let out := Provision "echo %s" "https://get.docker.com" stub_setRemoteAuthOptions
               quiet_host master_options auth.zero proxy_options st in
  out.1 = None ∧
  SwarmOptions (Generic (self out.2)) = master_options ∧
  swarm.Env (SwarmOptions (Generic (self out.2))) = ["SWARM=1"] ∧
  swarm.Env (SwarmOptions (Generic (self out.2))) ≠ engine.Env proxy_options.
Proof.
  intros st out.
  destruct (Provision_keeps_caller_swarm_options "echo %s" "https://get.docker.com"
              stub_setRemoteAuthOptions quiet_host master_options auth.zero
              proxy_options st) as (Hstored & Henv & Hne & _).
  split; [reflexivity|]. split; [exact Hstored|]. split; [exact Henv|].
  apply Hne. discriminate.
Defined.

(** * More of alpine.go *)

Section More.

Variable hostnameTmpl : string.
Variable DefaultEngineInstallURL : string.
Variable setRemoteAuthOptions : AlpineProvisioner → auth.Options.
Variable host : Host.

(** X1.  For every service name and action, [Service] sends the one command
    [sudo rc-service <name> <action>], the action being rendered by its
    [String] method, and returns what the host answered; the provisioner
    and the log stay as they are, and "docker" is no special case. *)
Theorem Service_one_command (ServiceAction_String : serviceaction.ServiceAction → string)
    (name : string) (action : serviceaction.ServiceAction) (st : State) :
  let command :=
    RunSSH ("sudo rc-service " +:+ name +:+ " " +:+ ServiceAction_String action) in
  Service ServiceAction_String host name action st
  = (answer host (issued st) command, called command st).
Proof.
  intros command. unfold Service.
  change (fmt.Sprintf "sudo rc-service %s %s" [name; ServiceAction_String action])
    with ("sudo rc-service " +:+ name +:+ " " +:+ (ServiceAction_String action +:+ "")).
  rewrite append_empty_r. subst command.
  unfold_run; cbn. by case_answer.
Qed.


(** X3.  Whatever the name and the action, [Package] leaves the provisioner
    as it is and sends at least one command and at most two; it sends two
    only when "docker" is upgraded. *)
Theorem Package_sends_one_or_two (name : string) (action : pkgaction.PackageAction)
    (st : State) :
  let out := Package host name action st in
  self out.2 = self st ∧
  ∃ made, issued out.2 = issued st ++ made ∧
          (length made = 1 ∨
           length made = 2 ∧ name = "docker" ∧ action = pkgaction.Upgrade).
Proof.
  intros out. split; [apply Package_receiver|]. subst out.
  unfold Package. case_decide as Hup.
  - rewrite upgrade_run. case_answer; eexists; (split; [done|]); cbn; tauto.
  - unfold_run; cbn. case_answer; eexists; (split; [done|]); cbn; tauto.
Qed.

(** *** What [Provision] leaves on the provisioner *)

(** The receiver at the end of a [Provision], whatever the storage driver:
    the three arguments stored as they came, or with the driver resolved, or
    with the auth options rewritten as well. *)
Lemma Provision_receiver_cases (swarmOptions : swarm.Options)
    (authOptions : auth.Options) (engineOptions : engine.Options) (st : State) :
  let p1 := stored swarmOptions authOptions engineOptions (self st) in
  self (Provision hostnameTmpl DefaultEngineInstallURL setRemoteAuthOptions host
          swarmOptions authOptions engineOptions st).2
  ∈ [ set_EngineOptions engineOptions
        (set_AuthOptions authOptions (set_SwarmOptions swarmOptions (self st)));
      p1; rewritten setRemoteAuthOptions p1 ].
Proof.
  intros p1.
  destruct (decide (supported (engine.StorageDriver engineOptions))) as [Hsup|Hno].
  - apply list_elem_of_further.
    apply (Provision_receiver hostnameTmpl DefaultEngineInstallURL setRemoteAuthOptions
             host swarmOptions authOptions engineOptions st Hsup).
  - rewrite Provision_unsupported by done. apply list_elem_of_here.
Qed.

Lemma same_machine_stored (swarmOptions : swarm.Options) (authOptions : auth.Options)
    (engineOptions : engine.Options) (p q : AlpineProvisioner) :
  same_machine p q →
  stored swarmOptions authOptions engineOptions p
  = stored swarmOptions authOptions engineOptions q.
Proof.
  destruct p as [[]], q as [[]]. unfold same_machine; cbn.
  intros (-> & -> & -> & -> & -> & ->). done.
Qed.

(** X4.  [Provision] assigns the three option fields and nothing else: the
    driver, the command runner, the package list, the two paths and the
    release id of the provisioner are after the call what they were before
    it, whatever the arguments and whatever fails. *)
Theorem Provision_same_machine (swarmOptions : swarm.Options)
    (authOptions : auth.Options) (engineOptions : engine.Options) (st : State) :
  same_machine
    (self (Provision hostnameTmpl DefaultEngineInstallURL setRemoteAuthOptions host
             swarmOptions authOptions engineOptions st).2)
    (self st).
Proof.
  pose proof (Provision_receiver_cases swarmOptions authOptions engineOptions st) as Hin.
  cbn zeta in Hin.
  repeat (apply elem_of_cons in Hin as [-> | Hin]; [by repeat split|]).
  by apply elem_of_nil in Hin.
Qed.

(** X5.  A [Provision] that refuses the storage driver has already written
    the provisioner: the caller's three options are stored as they came,
    the refused driver among them, although no call was made. *)
Theorem Provision_refused_driver_is_stored (swarmOptions : swarm.Options)
    (authOptions : auth.Options) (engineOptions : engine.Options) (st : State) :
  engine.StorageDriver engineOptions ≠ "" →
  engine.StorageDriver engineOptions ≠ "overlay" →
  let out := Provision hostnameTmpl DefaultEngineInstallURL setRemoteAuthOptions host
               swarmOptions authOptions engineOptions st in
  SwarmOptions (Generic (self out.2)) = swarmOptions ∧
  AuthOptions (Generic (self out.2)) = authOptions ∧
  EngineOptions (Generic (self out.2)) = engineOptions ∧
  issued out.2 = issued st.
Proof.
  intros Hne Hno out. subst out.
  rewrite Provision_unsupported by (by intros [|]).
  cbn. by destruct engineOptions.
Qed.

(** X6.  The empty storage driver and "overlay" are one and the same request:
    two calls of [Provision] that differ only in that return the same
    result and leave the same provisioner, the same calls and the same
    log. *)
Theorem Provision_empty_is_overlay (swarmOptions : swarm.Options)
    (authOptions : auth.Options) (engineOptions : engine.Options) (st : State) :
  Provision hostnameTmpl DefaultEngineInstallURL setRemoteAuthOptions host
    swarmOptions authOptions (engine.with_StorageDriver "" engineOptions) st
  = Provision hostnameTmpl DefaultEngineInstallURL setRemoteAuthOptions host
      swarmOptions authOptions (engine.with_StorageDriver "overlay" engineOptions) st.
Proof.
  unfold Provision.
  repeat (rewrite bind_run; cbv beta).
  rewrite !or_return_run.
  rewrite !resolve_storage_driver_supported by (cbn; unfold supported; tauto).
  reflexivity.
Qed.

(** Run the binds, the logs and the assignments at the head of a method. *)
Ltac run_head :=
  repeat first
    [ rewrite bind_run; cbv beta
    | progress cbn [receiver assign log.Debugf write_log fst snd self issued logged] ].

(** In a goal [P (f s)], replace the state [s] by a variable of which only
    the receiver [p] is known. *)
Ltac only_receiver P p :=
  match goal with
  | |- P (?f ?s) =>
      let H := fresh in
      assert (H : self s = p)
        by (repeat case_decide; unfold_run; cbn;
            rewrite ?install_packages_receiver, ?SetHostname_receiver; cbn;
            try done; congruence);
      revert H; generalize s;
      repeat match goal with Hs : self _ = p |- _ => clear Hs end;
      let st' := fresh "st" in
      let Hself := fresh "Hself" in
      intros st' Hself
  end.

(** X7.  A [Provision] that returns nil leaves on the provisioner the auth
    options [setRemoteAuthOptions] made, not those of the caller, next to
    the caller's swarm options and the engine options with the driver
    resolved. *)
Theorem Provision_nil_stores_remote_auth (swarmOptions : swarm.Options)
    (authOptions : auth.Options) (engineOptions : engine.Options) (st : State) :
  supported (engine.StorageDriver engineOptions) →
  let out := Provision hostnameTmpl DefaultEngineInstallURL setRemoteAuthOptions host
               swarmOptions authOptions engineOptions st in
  let p1 := stored swarmOptions authOptions engineOptions (self st) in
  out.1 = None →
  self out.2 = rewritten setRemoteAuthOptions p1 ∧
  AuthOptions (Generic (self out.2)) = setRemoteAuthOptions p1 ∧
  SwarmOptions (Generic (self out.2)) = swarmOptions ∧
  EngineOptions (Generic (self out.2)) = resolved engineOptions.
Proof.
  intros Hsup out p1.
  enough (Hself : out.1 = None → self out.2 = rewritten setRemoteAuthOptions p1).
  { intros Hnil. by rewrite (Hself Hnil). }
  pose (P := λ o : option error * State,
          o.1 = None → self o.2 = rewritten setRemoteAuthOptions p1).
  change (P out). subst out. unfold Provision. run_head.
  rewrite or_return_run, resolve_storage_driver_supported by done.
  cbn [receiver assign log.Debugf write_log fst snd self issued logged].
  fold (stored swarmOptions authOptions engineOptions (self st)). fold p1.
  only_receiver P p1.
  do 4 (run_head; rewrite or_return_run;
        match goal with
        | |- context [match ?r with Some _ => _ | None => _ end] => destruct r
        end; [by unfold P|]; only_receiver P p1).
  run_head. rewrite Hself, or_return_run.
  match goal with
  | |- context [match ?r with Some _ => _ | None => _ end] => destruct r
  end; [by unfold P|].
  run_head. unfold P, configureSwarm, ConfigureAuth. unfold_run; cbn. done.
Qed.

(** *** The arguments of the collaborator calls, in every run *)

Lemma provision_plan_collaborators (swarmOptions : swarm.Options)
    (authOptions : auth.Options) (engineOptions : engine.Options)
    (p0 : AlpineProvisioner) (ev : Event) :
  let p1 := stored swarmOptions authOptions engineOptions p0 in
  let p2 := rewritten setRemoteAuthOptions p1 in
  ev ∈ provision_plan hostnameTmpl DefaultEngineInstallURL setRemoteAuthOptions
         p0 swarmOptions authOptions engineOptions →
  match ev with
  | RunSSH _ => True
  | CallGenericSetHostname g hostname =>
      g = Generic p1 ∧ hostname = drivers.GetMachineName (Driver (Generic p0))
  | CallSelectDocker p url =>
      p = p1 ∧ url = engine.InstallURL engineOptions ∧
      engine.InstallURL engineOptions ≠ DefaultEngineInstallURL
  | CallMakeDockerOptionsDir p => p = p1
  | CallConfigureAuth p => p = p2
  | CallConfigureSwarm p sw au =>
      p = p2 ∧ sw = swarm.with_Env (engine.Env engineOptions) swarmOptions ∧
      au = setRemoteAuthOptions p1
  end.
Proof.
  intros p1 p2. unfold provision_plan, hostname_plan, install_plan.
  rewrite !elem_of_app, !elem_of_cons, list_elem_of_fmap.
  intros [Hin|[Hin|[Hin|Hin]]].
  - by destruct Hin as [->|[->|[->|Hin%elem_of_nil]]].
  - by destruct Hin as (? & -> & ?).
  - case_decide; [by apply elem_of_nil in Hin|].
    by apply list_elem_of_singleton in Hin as ->.
  - by destruct Hin as [->|[->|[->|Hin%elem_of_nil]]].
Qed.

(** X8.  In every run of [Provision], also one that fails later or earlier,
    [ConfigureAuth] is only ever called on a provisioner that holds the auth
    options [setRemoteAuthOptions] made from the stored ones, and
    [configureSwarm] is only ever passed those same options, which are the
    ones its provisioner holds. *)
Theorem Provision_auth_calls_are_remote (swarmOptions : swarm.Options)
    (authOptions : auth.Options) (engineOptions : engine.Options) (st : State) :
  let out := Provision hostnameTmpl DefaultEngineInstallURL setRemoteAuthOptions host
               swarmOptions authOptions engineOptions st in
  let remote := setRemoteAuthOptions
                  (stored swarmOptions authOptions engineOptions (self st)) in
  ∃ made,
    issued out.2 = issued st ++ made ∧
    (∀ p, CallConfigureAuth p ∈ made → AuthOptions (Generic p) = remote) ∧
    (∀ p sw au, CallConfigureSwarm p sw au ∈ made →
       au = remote ∧ AuthOptions (Generic p) = remote).
Proof.
  intros out remote.
  destruct (Provision_made hostnameTmpl DefaultEngineInstallURL setRemoteAuthOptions host
              swarmOptions authOptions engineOptions st)
    as (made & skipped & Hmade & Hplan).
  exists made. split; [done|]. split.
  - intros p Hin.
    pose proof (provision_plan_collaborators swarmOptions authOptions engineOptions
                  (self st) (CallConfigureAuth p)) as Hp.
    cbn zeta in Hp. rewrite Hp; [done|].
    rewrite Hplan. apply elem_of_app. by left.
  - intros p sw au Hin.
    pose proof (provision_plan_collaborators swarmOptions authOptions engineOptions
                  (self st) (CallConfigureSwarm p sw au)) as Hp.
    cbn zeta in Hp. destruct Hp as (-> & _ & ->); [|done].
    rewrite Hplan. apply elem_of_app. by left.
Qed.

(** X9.  In every run of [Provision], [selectDocker] is called only when the
    install URL of the engine options is not the default one, and then
    with that URL; with the default URL no run calls it. *)
Theorem Provision_selectDocker_only_off_default (swarmOptions : swarm.Options)
    (authOptions : auth.Options) (engineOptions : engine.Options) (st : State) :
  let out := Provision hostnameTmpl DefaultEngineInstallURL setRemoteAuthOptions host
               swarmOptions authOptions engineOptions st in
  ∃ made,
    issued out.2 = issued st ++ made ∧
    (∀ p url, CallSelectDocker p url ∈ made →
       url = engine.InstallURL engineOptions ∧
       engine.InstallURL engineOptions ≠ DefaultEngineInstallURL) ∧
    (engine.InstallURL engineOptions = DefaultEngineInstallURL →
       ∀ p url, CallSelectDocker p url ∉ made).
Proof.
  intros out.
  destruct (Provision_made hostnameTmpl DefaultEngineInstallURL setRemoteAuthOptions host
              swarmOptions authOptions engineOptions st)
    as (made & skipped & Hmade & Hplan).
  exists made. split; [done|].
  assert (Hsel : ∀ p url, CallSelectDocker p url ∈ made →
            url = engine.InstallURL engineOptions ∧
            engine.InstallURL engineOptions ≠ DefaultEngineInstallURL).
  { intros p url Hin.
    pose proof (provision_plan_collaborators swarmOptions authOptions engineOptions
                  (self st) (CallSelectDocker p url)) as Hp.
    cbn zeta in Hp. destruct Hp as (_ & -> & Hne); [|done].
    rewrite Hplan. apply elem_of_app. by left. }
  split; [done|].
  intros Hdef p url Hin. by destruct (Hsel p url Hin) as [_ Hne].
Qed.

(** *** [Provision] again *)

Lemma provision_plan_same_machine (swarmOptions : swarm.Options)
    (authOptions : auth.Options) (engineOptions : engine.Options)
    (p q : AlpineProvisioner) :
  same_machine p q →
  provision_plan hostnameTmpl DefaultEngineInstallURL setRemoteAuthOptions
    p swarmOptions authOptions engineOptions
  = provision_plan hostnameTmpl DefaultEngineInstallURL setRemoteAuthOptions
      q swarmOptions authOptions engineOptions.
Proof.
  intros Hsame. unfold provision_plan.
  by rewrite (same_machine_stored swarmOptions authOptions engineOptions p q Hsame).
Qed.

End More.

(** X10.  What an earlier [Provision] stored has no part in a later one.
    After any [Provision], with any arguments, on any host, failed or not,
    a [Provision] with a supported driver goes through the plan made from
    its own arguments and the provisioner as it first was: it makes the
    calls of that plan in order up to the first that errors and returns
    that error, or nil. *)
Theorem Provision_again (hostnameTmpl DefaultEngineInstallURL : string)
    (setRemoteAuthOptions : AlpineProvisioner → auth.Options) (host0 host : Host)
    (swarmOptions0 : swarm.Options)
    (authOptions0 : auth.Options) (engineOptions0 : engine.Options)
    (swarmOptions : swarm.Options) (authOptions : auth.Options)
    (engineOptions : engine.Options) (st : State) :
  supported (engine.StorageDriver engineOptions) →
  let st1 := (Provision hostnameTmpl DefaultEngineInstallURL setRemoteAuthOptions host0
                swarmOptions0 authOptions0 engineOptions0 st).2 in
  let out := Provision hostnameTmpl DefaultEngineInstallURL setRemoteAuthOptions host
               swarmOptions authOptions engineOptions st1 in
  let plan := provision_plan hostnameTmpl DefaultEngineInstallURL setRemoteAuthOptions
                (self st) swarmOptions authOptions engineOptions in
  out.1 = (fail_fast host (issued st1) plan).2 ∧
  issued out.2 = issued st1 ++ (fail_fast host (issued st1) plan).1.
Proof.
  intros Hsup st1 out plan.
  pose proof (Provision_follows hostnameTmpl DefaultEngineInstallURL setRemoteAuthOptions
                host swarmOptions authOptions engineOptions st1 Hsup) as Hrun.
  rewrite (provision_plan_same_machine hostnameTmpl DefaultEngineInstallURL
             setRemoteAuthOptions swarmOptions authOptions engineOptions
             (self st1) (self st)) in Hrun; [done|].
  pose proof (Provision_receiver_cases hostnameTmpl DefaultEngineInstallURL
                setRemoteAuthOptions host0 swarmOptions0 authOptions0 engineOptions0 st)
    as Hin.
  cbn zeta in Hin. fold st1 in Hin.
  repeat (apply elem_of_cons in Hin as [-> | Hin]; [by repeat split|]).
  by apply elem_of_nil in Hin.
Qed.


Section Loop.

Variable host : Host.


End Loop.

(** *** The log *)

Create HintDb log.

Lemma appends_ret {A} (a : A) : appends_log (mret a).
Proof. intros st. exists []. cbn. by rewrite app_nil_r. Qed.

Lemma appends_bind {A B} (m : M A) (f : A → M B) :
  appends_log m → (∀ a, appends_log (f a)) → appends_log (m ≫= f).
Proof.
  intros Hm Hf st. rewrite bind_run.
  destruct (Hm st) as [l1 H1]. destruct (Hf (m st).1 (m st).2) as [l2 H2].
  exists (l1 ++ l2). by rewrite H2, H1, app_assoc.
Qed.

Lemma appends_or_return (step next : M (option error)) :
  appends_log step → appends_log next → appends_log (or_return step next).
Proof.
  intros Hs Hn. unfold or_return. apply appends_bind; [done|].
  intros [e|]; [apply appends_ret | done].
Qed.

Lemma appends_receiver : appends_log receiver.
Proof. intros st. exists []. cbn. by rewrite app_nil_r. Qed.

Lemma appends_assign (f : AlpineProvisioner → AlpineProvisioner) :
  appends_log (assign f).
Proof. intros st. exists []. cbn. by rewrite app_nil_r. Qed.

Lemma appends_write_log (lvl : Level) (format : string) (args : list string) :
  appends_log (write_log lvl format args).
Proof. intros st. by eexists. Qed.

Lemma appends_call (host : Host) (ev : Event) : appends_log (call host ev).
Proof. intros st. exists []. cbn. by rewrite app_nil_r. Qed.

Lemma appends_SSHCommand (host : Host) (command : string) :
  appends_log (SSHCommand host command).
Proof. intros st. exists []. cbn. by rewrite app_nil_r. Qed.

#[local] Hint Resolve appends_ret appends_receiver appends_assign appends_write_log
  appends_call appends_SSHCommand : log.

(** Take a method apart along its binds and its branches. *)
Ltac appends :=
  repeat match goal with
    | |- appends_log (or_return _ _) => apply appends_or_return
    | |- appends_log (mbind _ _) => apply appends_bind; [|intros ?; cbv beta]
    | |- appends_log (let '(_, _) := ?x in _) => destruct x
    | |- appends_log (match ?x with Some _ => _ | None => _ end) => destruct x
    | |- appends_log (if ?c then _ else _) => destruct c
    | |- _ => solve [auto with log]
    end.

Section Log.

Variable hostnameTmpl : string.
Variable DefaultEngineInstallURL : string.
Variable setRemoteAuthOptions : AlpineProvisioner → auth.Options.
Variable host : Host.

Lemma appends_upgrade : appends_log (upgrade host).
Proof. unfold upgrade, log.Infof. appends. Qed.

Lemma appends_Package (name : string) (action : pkgaction.PackageAction) :
  appends_log (Package host name action).
Proof. unfold Package. case_decide; [apply appends_upgrade|]. appends. Qed.

Lemma appends_SetHostname (hostname : string) :
  appends_log (SetHostname hostnameTmpl host hostname).
Proof. unfold SetHostname, GenericProvisioner_SetHostname. appends. Qed.

Lemma appends_install_packages (pkgs : list string) :
  appends_log (install_packages host pkgs).
Proof.
  induction pkgs as [|pkg rest IH]; cbn [install_packages]; [apply appends_ret|].
  unfold log.Debugf. appends. apply appends_Package.
Qed.

Lemma appends_resolve_storage_driver : appends_log resolve_storage_driver.
Proof. unfold resolve_storage_driver. appends. Qed.

(** X12.  Every [Provision], also one that fails, keeps what was logged
    before it and logs first, at debug level, the line
    [Running RancherOS provisioner on <machine name>], whatever else it
    logs after it. *)
Theorem Provision_logs_RancherOS_first (swarmOptions : swarm.Options)
    (authOptions : auth.Options) (engineOptions : engine.Options) (st : State) :
  ∃ more,
    logged (Provision hostnameTmpl DefaultEngineInstallURL setRemoteAuthOptions host
              swarmOptions authOptions engineOptions st).2
    = logged st ++
      (Debug, "Running RancherOS provisioner on " +:+
              drivers.GetMachineName (Driver (Generic (self st)))) :: more.
Proof.
  unfold Provision.
  repeat (rewrite bind_run; cbv beta).
  match goal with
  | |- ∃ more, logged (or_return ?step ?next ?s).2 = _ =>
      assert (Hrest : appends_log (or_return step next))
  end.
  { unfold log.Debugf, selectDocker, makeDockerOptionsDir, ConfigureAuth, configureSwarm.
    appends;
      auto using appends_resolve_storage_driver, appends_SetHostname,
        appends_install_packages. }
  match goal with
  | |- ∃ more, logged (or_return ?step ?next ?s).2 = _ =>
      destruct (Hrest s) as [more Hmore]
  end.
  exists more. rewrite Hmore. cbn [log.Debugf write_log receiver assign fst snd logged self].
  change (fmt.Sprintf "Running RancherOS provisioner on %s"
            [drivers.GetMachineName (Driver (Generic (self st)))])
    with ("Running RancherOS provisioner on " +:+
          (drivers.GetMachineName (Driver (Generic (self st))) +:+ "")).
  by rewrite append_empty_r, <- app_assoc.
Qed.

End Log.

(** *** Witnesses and one more fact *)

(** X13.  In every run of [Provision] the generic [SetHostname] is asked for
    the machine name of the driver the provisioner is bound to, and when it
    is called the provisioner already holds the caller's swarm and auth
    options and the engine options with the driver resolved. *)
Theorem Provision_hostname_is_machine_name (hostnameTmpl DefaultEngineInstallURL : string)
    (setRemoteAuthOptions : AlpineProvisioner → auth.Options) (host : Host)
    (swarmOptions : swarm.Options) (authOptions : auth.Options)
    (engineOptions : engine.Options) (st : State) :
  let out := Provision hostnameTmpl DefaultEngineInstallURL setRemoteAuthOptions host
               swarmOptions authOptions engineOptions st in
  ∃ made,
    issued out.2 = issued st ++ made ∧
    ∀ g hostname, CallGenericSetHostname g hostname ∈ made →
      hostname = drivers.GetMachineName (Driver (Generic (self st))) ∧
      SwarmOptions g = swarmOptions ∧
      AuthOptions g = authOptions ∧
      EngineOptions g = resolved engineOptions.
Proof.
  intros out.
  destruct (Provision_made hostnameTmpl DefaultEngineInstallURL setRemoteAuthOptions host
              swarmOptions authOptions engineOptions st)
    as (made & skipped & Hmade & Hplan).
  exists made. split; [done|].
  intros g hostname Hin.
  pose proof (provision_plan_collaborators hostnameTmpl DefaultEngineInstallURL
                setRemoteAuthOptions swarmOptions authOptions engineOptions
                (self st) (CallGenericSetHostname g hostname)) as Hp.
  cbn zeta in Hp. destruct Hp as [-> ->]; [|done].
  rewrite Hplan. apply elem_of_app. by left.
Qed.

Lemma Provision_refused_driver_is_stored_witness :
  let out := Provision "echo %s" "https://get.docker.com" stub_setRemoteAuthOptions
               quiet_host master_options {| auth.CertDir := "/local/certs" |}
               btrfs_options (fresh (NewAlpineProvisioner stub_driver)) in
  SwarmOptions (Generic (self out.2)) = master_options ∧
  AuthOptions (Generic (self out.2)) = {| auth.CertDir := "/local/certs" |} ∧
  EngineOptions (Generic (self out.2)) = btrfs_options ∧
  issued out.2 = [].
Proof.
  apply (Provision_refused_driver_is_stored "echo %s" "https://get.docker.com"
           stub_setRemoteAuthOptions quiet_host master_options
           {| auth.CertDir := "/local/certs" |} btrfs_options
           (fresh (NewAlpineProvisioner stub_driver))).
  - discriminate.
  - discriminate.
Defined.

Lemma Provision_nil_stores_remote_auth_witness :
  let st := fresh (NewAlpineProvisioner stub_driver) in
  let authOptions := {| auth.CertDir := "/local/certs" |} in
  let out := Provision "echo %s" "https://get.docker.com" stub_setRemoteAuthOptions
               quiet_host master_options authOptions proxy_options st in
  self out.2 = rewritten stub_setRemoteAuthOptions
                 (stored master_options authOptions proxy_options (self st)) ∧
  AuthOptions (Generic (self out.2)) = {| auth.CertDir := "/etc/docker" |} ∧
  SwarmOptions (Generic (self out.2)) = master_options ∧
  EngineOptions (Generic (self out.2))
    = {| engine.Env := ["HTTP_PROXY=http://proxy:3128"]; engine.InstallURL := "";
         engine.StorageDriver := "overlay" |}.
Proof.
  apply (Provision_nil_stores_remote_auth "echo %s" "https://get.docker.com"
           stub_setRemoteAuthOptions quiet_host master_options
           {| auth.CertDir := "/local/certs" |} proxy_options
           (fresh (NewAlpineProvisioner stub_driver))).
  - left. reflexivity.
  - reflexivity.
Defined.

(** A second [Provision] after a first one with other arguments: the same
    calls as if the first had not been. *)
Lemma Provision_again_witness :
  let st := fresh (NewAlpineProvisioner stub_driver) in
  let st1 := (Provision "echo %s" "https://get.docker.com" stub_setRemoteAuthOptions
                quiet_host master_options auth.zero proxy_options st).2 in
  let out := Provision "echo %s" "https://get.docker.com" stub_setRemoteAuthOptions
               quiet_host swarm.zero auth.zero engine.zero st1 in
  out.1 = None ∧
  issued out.2 =
    issued st1 ++
    provision_plan "echo %s" "https://get.docker.com" stub_setRemoteAuthOptions
      (self st) swarm.zero auth.zero engine.zero.
Proof.
  apply (Provision_again "echo %s" "https://get.docker.com" stub_setRemoteAuthOptions
           quiet_host quiet_host master_options auth.zero proxy_options
           swarm.zero auth.zero engine.zero (fresh (NewAlpineProvisioner stub_driver))).
  left. reflexivity.
Defined.
